(** * A model of [app.py]: video-id extraction, transcript assembly and
      the button flow of the Streamlit page.

    Python's [str] is a sequence of Unicode code points; it is modelled as a
    list of code points ([N]).  The regular expression of [extract_video_id]
    is kept as data and run by a backtracking matcher that follows the
    behaviour of [re.search] on the constructs the pattern uses. *)

From Stdlib Require Import NArith String Ascii.
From stdpp Require Import base decidable option list list_monad numbers gmap pretty.

Local Open Scope nat_scope.

(** ** Strings *)

Abbreviation pystr := (list N).

(** [ord a] is the code point of an ASCII character, as Python's [ord]. *)
Definition ord (a : ascii) : N := N_of_ascii a.

(** [str s] is the Python string whose characters are the (ASCII) ones of
    the literal [s]. *)
Definition str (s : string) : pystr := ord <$> list_ascii_of_string s.

(** [s[a:b]] for [0 <= a <= b]. *)
Definition slice (s : pystr) (a b : nat) : pystr := take (b - a) (drop a s).

(** ** Results and exceptions *)

(** The exceptions the program can meet.  [ApiError d] is whatever the
    transcript service raises, with [d] what [str(exc)] gives for it. *)
Inductive exn :=
  | ApiError (description : pystr)
  | KeyError (key : pystr)
  | TypeError (msg : pystr)
  | IndexError (msg : pystr).

Inductive result (A : Type) :=
  | Ok (a : A)
  | Raise (e : exn).
Arguments Ok {A} a.
Arguments Raise {A} e.

#[global] Instance result_ret : MRet result := λ _ a, Ok a.
#[global] Instance result_bind : MBind result := λ _ _ f r,
  match r with
  | Ok a => f a
  | Raise e => Raise e
  end.

(** [repr(s)] for a string free of quotes, backslashes and unprintable
    characters, which is the case of the one key the program uses. *)
Definition repr_plain (s : pystr) : pystr := str "'" ++ s ++ str "'".

(** [str(exc)]. *)
Definition exc_str (e : exn) : pystr :=
  match e with
  | ApiError d => d
  | KeyError key => repr_plain key
  | TypeError msg => msg
  | IndexError msg => msg
  end.

(** ** The regular-expression engine *)

Module Re.

(** One item of a bracketed character set: a range [lo-hi] or a single
    character. *)
Inductive set_item :=
  | Range (lo hi : N)
  | Single (c : N).

Definition in_item (c : N) (it : set_item) : bool :=
  match it with
  | Range lo hi => (lo <=? c)%N && (c <=? hi)%N
  | Single c' => (c =? c')%N
  end.

Definition in_set (items : list set_item) (c : N) : bool :=
  existsb (in_item c) items.

(** The constructs used by the pattern: a literal character, a character
    set [[...]], concatenation, alternation [r1|r2], a capturing group
    [(r)] with its number, and the exact repetition [r{n}].  A
    non-capturing group [(?:r)] only brackets and is [r] itself. *)
Inductive regex :=
  | Lit (c : N)
  | CharSet (items : list set_item)
  | Cat (r1 r2 : regex)
  | Alt (r1 r2 : regex)
  | Group (i : nat) (r : regex)
  | Repeat (n : nat) (r : regex).

(** Number of capturing groups of a pattern. *)
Fixpoint ngroups (r : regex) : nat :=
  match r with
  | Lit _ | CharSet _ => 0
  | Cat r1 r2 | Alt r1 r2 => ngroups r1 `max` ngroups r2
  | Group i r' => i `max` ngroups r'
  | Repeat _ r' => ngroups r'
  end.

(** The matcher's state: the current position in the subject and the span
    of each group that has matched so far (group [i] at index [i - 1]). *)
Record mstate := MState {
  pos : nat;
  caps : list (option (nat * nat))
}.

Definition advance (st : mstate) : mstate :=
  MState (S (pos st)) (caps st).

Definition set_group (i : nat) (span : nat * nat) (st : mstate) : mstate :=
  MState (pos st) (<[pred i := Some span]> (caps st)).

(** Backtracking matching in continuation-passing style: [rmatch s r k st]
    matches [r] at [st] and hands every way of doing so, in the engine's
    order of preference, to the continuation [k] until one succeeds.  An
    alternation tries its left branch first and falls back to the right
    one when the rest of the pattern fails after it. *)
Fixpoint rmatch (s : pystr) (r : regex)
    (k : mstate → option mstate) (st : mstate) : option mstate :=
  match r with
  | Lit c =>
      match s !! pos st with
      | Some c' => if (c =? c')%N then k (advance st) else None
      | None => None
      end
  | CharSet items =>
      match s !! pos st with
      | Some c' => if in_set items c' then k (advance st) else None
      | None => None
      end
  | Cat r1 r2 => rmatch s r1 (rmatch s r2 k) st
  | Alt r1 r2 =>
      match rmatch s r1 k st with
      | Some st' => Some st'
      | None => rmatch s r2 k st
      end
  | Group i r' =>
      rmatch s r' (λ st', k (set_group i (pos st, pos st') st')) st
  | Repeat n r' => Nat.iter n (rmatch s r') k st
  end.

(** A match object: the subject, the span of the whole match and the
    spans of the groups. *)
Record Match := MkMatch {
  m_string : pystr;
  m_start : nat;
  m_end : nat;
  m_groups : list (option (nat * nat))
}.

Definition match_at (r : regex) (s : pystr) (i : nat) : option Match :=
  match rmatch s r Some (MState i (replicate (ngroups r) None)) with
  | Some st => Some (MkMatch s i (pos st) (caps st))
  | None => None
  end.

(** Try the start positions in the given order; the first one at which
    the pattern matches wins. *)
Fixpoint scan (r : regex) (s : pystr) (starts : list nat) : option Match :=
  match starts with
  | [] => None
  | i :: starts' =>
      match match_at r s i with
      | Some m => Some m
      | None => scan r s starts'
      end
  end.

(** [re.search(r, s)]: scan through [s] from left to right, every start
    position from [0] to [len(s)]. *)
Definition search (r : regex) (s : pystr) : option Match :=
  scan r s (seq 0 (S (length s))).

(** [m.group(i)]: the text of group [i] ([0] is the whole match), [None]
    for a group that took no part in the match, [IndexError] for a group
    number the pattern does not have. *)
Definition group (m : Match) (i : nat) : result (option pystr) :=
  match i with
  | 0 => Ok (Some (slice (m_string m) (m_start m) (m_end m)))
  | S j =>
      match m_groups m !! j with
      | Some (Some (a, b)) => Ok (Some (slice (m_string m) a b))
      | Some None => Ok None
      | None => Raise (IndexError (str "no such group"))
      end
  end.

End Re.

(** ** [extract_video_id] *)

(** The set [[0-9A-Za-z_-]]. *)
Definition id_alphabet : list Re.set_item :=
  [Re.Range (ord "0") (ord "9"); Re.Range (ord "A") (ord "Z");
   Re.Range (ord "a") (ord "z"); Re.Single (ord "_"); Re.Single (ord "-")].

(** [pattern = r"(?:v=|/)([0-9A-Za-z_-]{11})"]. *)
Definition pattern : Re.regex :=
  Re.Cat
    (Re.Alt (Re.Cat (Re.Lit (ord "v")) (Re.Lit (ord "="))) (Re.Lit (ord "/")))
    (Re.Group 1 (Re.Repeat 11 (Re.CharSet id_alphabet))).

(** [match = re.search(pattern, url)]
    [return match.group(1) if match else None] *)
Definition extract_video_id (url : pystr) : result (option pystr) :=
  match Re.search pattern url with
  | Some m => Re.group m 1
  | None => Ok None
  end.

(** ** Transcript segments and [str.join] *)

(** The values held by a segment record: its text, and the floating-point
    start and duration, which the program never looks at and which are kept
    as their bit patterns. *)
Inductive pyval :=
  | PyStr (s : pystr)
  | PyFloat (bits : N).

Definition type_name (v : pyval) : pystr :=
  match v with
  | PyStr _ => str "str"
  | PyFloat _ => str "float"
  end.

(** A segment is a [dict] with string keys. *)
Abbreviation entry := (gmap pystr pyval).

(** [d[key]]. *)
Definition getitem (d : entry) (key : pystr) : result pyval :=
  match d !! key with
  | Some v => Ok v
  | None => Raise (KeyError key)
  end.

(** The line feed, written ["\n"] in the source. *)
Definition newline : pystr := [10%N].

(** How [sep.join] lays out items that are all strings. *)
Fixpoint join_strs (sep : pystr) (items : list pystr) : pystr :=
  match items with
  | [] => []
  | x :: rest =>
      match rest with
      | [] => x
      | _ :: _ => x ++ sep ++ join_strs sep rest
      end
  end.

(** [sep.join] refuses the first item that is not a string, naming its
    index. *)
Fixpoint check_strs (i : nat) (items : list pyval) : result (list pystr) :=
  match items with
  | [] => Ok []
  | PyStr s :: rest => strs ← check_strs (S i) rest; mret (s :: strs)
  | v :: _ =>
      Raise (TypeError (str "sequence item " ++ str (pretty (N.of_nat i))
                        ++ str ": expected str instance, "
                        ++ type_name v ++ str " found"))
  end.

(** [sep.join(items)], the items already drawn from the iterable. *)
Definition str_join (sep : pystr) (items : list pyval) : result pystr :=
  strs ← check_strs 0 items; mret (join_strs sep strs).

(** ** The page: what a run of the script does and sees *)

(** The calls a run makes, in the order it makes them: the Streamlit
    widgets with their arguments, the request to the transcript service, and
    the calls of the two functions of the program from [main]. *)
Inductive event :=
  | StSetPageConfig (page_title page_icon : pystr)
  | StTitle (body : pystr)
  | StWrite (body : pystr)
  | StTextInput (label placeholder key : pystr)
  | StButton (label key : pystr)
  | StError (body : pystr)
  | StSpinnerEnter (text : pystr)
  | StSpinnerExit
  | StSuccess (body : pystr)
  | StTextArea (label value : pystr) (height : nat) (help : pystr)
  | StDownloadButton (label data file_name mime : pystr)
  | GetTranscript (video_id : pystr)
  | CallExtractVideoId (url : pystr)
  | CallFetchTranscript (video_id : pystr).

(** The page icon, the clipboard emoji U+1F4CB. *)
Definition clipboard_icon : pystr := [128203%N].

(** What the run is given: the text in the input field, whether the button
    was pressed, and how the transcript service answers. *)
Record session := Session {
  video_url_value : pystr;
  fetch_button_clicked : bool;
  get_transcript : pystr → result (list entry)
}.

(** How a piece of the script ends: it goes on with a value, it leaves
    [main] through [return], or it raises. *)
Inductive outcome (A : Type) :=
  | Normal (a : A)
  | Returned
  | Raised (e : exn).
Arguments Normal {A} a.
Arguments Returned {A}.
Arguments Raised {A} e.

(** A piece of the script extends the trace of calls made so far. *)
Definition ui (A : Type) : Type := list event → outcome A * list event.

#[global] Instance ui_ret : MRet ui := λ _ a tr, (Normal a, tr).
#[global] Instance ui_bind : MBind ui := λ _ _ f m tr,
  match m tr with
  | (Normal a, tr') => f a tr'
  | (Returned, tr') => (Returned, tr')
  | (Raised e, tr') => (Raised e, tr')
  end.

Definition emit (e : event) : ui unit := λ tr, (Normal (), tr ++ [e]).
Definition return_ {A} : ui A := λ tr, (Returned, tr).
Definition lift {A} (r : result A) : ui A := λ tr,
  match r with
  | Ok a => (Normal a, tr)
  | Raise e => (Raised e, tr)
  end.

(** [try: body / except Exception as exc: handler]; every exception of the
    model is an [Exception]. *)
Definition try_except {A} (body : ui A) (handler : exn → ui A) : ui A := λ tr,
  match body tr with
  | (Raised e, tr') => handler e tr'
  | other => other
  end.

(** [with st.spinner(text): body]; the spinner is taken down however the
    body ends. *)
Definition with_spinner {A} (text : pystr) (body : ui A) : ui A := λ tr,
  let '(o, tr') := body (tr ++ [StSpinnerEnter text]) in (o, tr' ++ [StSpinnerExit]).

Section widgets.
Context (w : session).

Definition st_text_input (label placeholder key : pystr) : ui pystr :=
  emit (StTextInput label placeholder key);; mret (video_url_value w).

Definition st_button (label key : pystr) : ui bool :=
  emit (StButton label key);; mret (fetch_button_clicked w).

(** ** [fetch_transcript] *)

(** [transcript_list = YouTubeTranscriptApi.get_transcript(video_id)]
    [return "\n".join(entry["text"] for entry in transcript_list)]

    [join] first draws every item from the generator, so a missing key is
    met before any item is checked to be a string. *)
Definition fetch_transcript (video_id : pystr) : ui pystr :=
  emit (GetTranscript video_id);;
  transcript_list ← lift (get_transcript w video_id);
  lift (items ← mapM (λ entry : entry, getitem entry (str "text"))
                     transcript_list;
        str_join newline items).

(** ** [main] *)

Definition main : ui unit :=
  emit (StSetPageConfig (str "YouTube Transcript Copier") clipboard_icon);;
  emit (StTitle (str "YouTube Transcript Copier"));;
  emit (StWrite (str "Paste a YouTube video URL below and click **Get Transcript** to fetch its captions as text. You can then download the transcript as a file or copy the text manually from the box."));;
  video_url ← st_text_input (str "Enter YouTube Video URL:")
                (str "https://www.youtube.com/watch?v=example")
                (str "video_url");
  clicked ← st_button (str "Get Transcript") (str "fetch_button");
  if clicked : bool then
    (match video_url with
     | [] => emit (StError (str "Please enter a YouTube URL."));; return_
     | _ :: _ => mret ()
     end);;
    emit (CallExtractVideoId video_url);;
    video_id ← lift (extract_video_id video_url);
    match video_id with
    | None =>
        emit (StError (str "Invalid YouTube URL. Please check the link and try again."));;
        return_
    | Some video_id =>
        transcript ←
          with_spinner (str "Fetching transcript...")
            (try_except
               (emit (CallFetchTranscript video_id);;
                fetch_transcript video_id)
               (λ exc,
                  emit (StError (str "Sorry, there was a problem fetching the transcript: "
                               ++ exc_str exc ++ str "."));;
                  return_));
        emit (StSuccess (str "Transcript fetched successfully!"));;
        emit (StWrite (str "Below is the transcript of your video. You can scroll and copy."));;
        emit (StTextArea (str "Transcript") transcript 300
                (str "Click inside and press Ctrl+A to select all."));;
        emit (StDownloadButton (str "Download Transcript as .txt") transcript
                (str "youtube_transcript.txt") (str "text/plain"))
    end
  else mret ().

End widgets.

(** One run of the script, from an empty page. *)
Definition run (w : session) : outcome unit * list event := main w [].

(** ** Reading a trace *)

(** What every run puts on the page before it looks at the button. *)
Definition page_header : list event :=
  [StSetPageConfig (str "YouTube Transcript Copier") clipboard_icon;
   StTitle (str "YouTube Transcript Copier");
   StWrite (str "Paste a YouTube video URL below and click **Get Transcript** to fetch its captions as text. You can then download the transcript as a file or copy the text manually from the box.");
   StTextInput (str "Enter YouTube Video URL:")
     (str "https://www.youtube.com/watch?v=example") (str "video_url");
   StButton (str "Get Transcript") (str "fetch_button")].

(** The messages given to [st.error], in order. *)
Definition errors (tr : list event) : list pystr :=
  omap (λ e, match e with StError body => Some body | _ => None end) tr.

Definition extractor_calls (tr : list event) : list pystr :=
  omap (λ e, match e with CallExtractVideoId url => Some url | _ => None end) tr.

(** Calls of [fetch_transcript] and requests to the service. *)
Definition fetcher_calls (tr : list event) : list pystr :=
  omap (λ e, match e with
             | CallFetchTranscript id | GetTranscript id => Some id
             | _ => None
             end) tr.

(** The transcripts put in the text area or behind the download button. *)
Definition transcripts_shown (tr : list event) : list pystr :=
  omap (λ e, match e with
             | StTextArea _ value _ _ => Some value
             | StDownloadButton _ data _ _ => Some data
             | _ => None
             end) tr.

(** ** Two services to run the page against *)

(** A service that answers every request with the segments
    [[{"text": "Hello", "start": 0.0}, {"text": "world"}]]. *)
Definition hello_world_service : pystr → result (list entry) :=
  λ _, Ok [ {[ str "text" := PyStr (str "Hello"); str "start" := PyFloat 0 ]};
            {[ str "text" := PyStr (str "world") ]} ].

(** A service that has no transcript for any video. *)
Definition no_transcript_service : pystr → result (list entry) :=
  λ _, Raise (ApiError (str "No transcripts available")).

(** ** What the pattern looks for, stated on the string itself *)

Definition is_id_char (c : N) : bool := Re.in_set id_alphabet c.

(** A video id: exactly 11 characters of the alphabet. *)
Definition is_video_id (id : pystr) : Prop :=
  length id = 11 ∧ Forall (λ c, is_id_char c = true) id.

(** The two markers an id may follow. *)
Definition is_marker (pfx : pystr) : Prop :=
  pfx = str "v=" ∨ pfx = str "/".

(** [url] holds the id [id] right after a marker that starts at the end of
    [pre]. *)
Definition occurrence (url pre pfx id post : pystr) : Prop :=
  url = pre ++ pfx ++ id ++ post ∧ is_marker pfx ∧ is_video_id id.

(** No occurrence in [url] starts before the end of [pre]. *)
Definition leftmost (url pre : pystr) : Prop :=
  ∀ pre' pfx' id' post',
    occurrence url pre' pfx' id' post' → length pre ≤ length pre'.

#[global] Instance is_video_id_dec id : Decision (is_video_id id).
Proof. unfold is_video_id. apply _. Defined.

#[global] Instance is_marker_dec pfx : Decision (is_marker pfx).
Proof. unfold is_marker. apply _. Defined.

#[global] Instance occurrence_dec url pre pfx id post :
  Decision (occurrence url pre pfx id post).
Proof. unfold occurrence. apply _. Defined.

(** The id that follows a marker starting at index [i], if there is one. *)
Definition candidate_at (url : pystr) (i : nat) : option pystr :=
  if bool_decide (url !! i = Some (ord "v") ∧ url !! (i + 1) = Some (ord "=")
                  ∧ is_video_id (take 11 (drop (i + 2) url)))
  then Some (take 11 (drop (i + 2) url))
  else if bool_decide (url !! i = Some (ord "/")
                       ∧ is_video_id (take 11 (drop (i + 1) url)))
  then Some (take 11 (drop (i + 1) url))
  else None.

(** The spec's [t1 + "\n" + t2 + ... + "\n" + tN], added up from the left;
    the empty string for no text at all. *)
Definition newline_joined (texts : list pystr) : pystr :=
  match texts with
  | [] => []
  | t1 :: rest => foldl (λ acc t, acc ++ newline ++ t) t1 rest
  end.

(** The characters [str.isspace] accepts. *)
Definition is_whitespace (c : N) : bool :=
  ((9 <=? c) && (c <=? 13) || (28 <=? c) && (c <=? 32)
   || (c =? 133) || (c =? 160) || (c =? 5760)
   || (8192 <=? c) && (c <=? 8202)
   || (c =? 8232) || (c =? 8233) || (c =? 8239) || (c =? 8287)
   || (c =? 12288))%N.

(** ** Further vocabulary for traces and prefixes *)

(** The requests sent to the transcript service, in order. *)
Definition service_requests (tr : list event) : list pystr :=
  omap (λ e, match e with GetTranscript id => Some id | _ => None end) tr.

(** The spinner going up and coming down. *)
Definition spinner_events (tr : list event) : list event :=
  omap (λ e, match e with
             | StSpinnerEnter _ | StSpinnerExit => Some e
             | _ => None
             end) tr.

(** What [fetch_transcript] ends with, the trace left aside. *)
Definition fetch_outcome (w : session) (video_id : pystr) : result pystr :=
  transcript_list ← get_transcript w video_id;
  items ← mapM (λ entry : entry, getitem entry (str "text")) transcript_list;
  str_join newline items.

(** Some character of [pre] among the 11 from index [k] on is outside the
    alphabet. *)
Definition run_broken (pre : pystr) (k : nat) : bool :=
  existsb (λ m, match pre !! (k + m) with
                | Some c => negb (is_id_char c)
                | None => false
                end) (seq 0 11).

(** The characters of [pre] alone show that no match can start at its
    index [j], whatever text follows [pre]. *)
Definition ruled_out (pre : pystr) (j : nat) : bool :=
  match pre !! j with
  | Some c =>
      if (c =? ord "/")%N then run_broken pre (j + 1)
      else if (c =? ord "v")%N then
        match pre !! (j + 1) with
        | Some c1 => if (c1 =? ord "=")%N then run_broken pre (j + 2) else true
        | None => false
        end
      else true
  | None => true
  end.

(** The same for every index below [n]. *)
Definition no_match_starts_in (pre : pystr) (n : nat) : bool :=
  forallb (ruled_out pre) (seq 0 n).

(** * Properties *)

(** ** The matcher and the pattern *)

Section matcher.
Import Re.
Context (s : pystr).

(** A run of [n] characters of one set is matched in the one possible way. *)
Lemma iter_charset cs n k st :
  Nat.iter n (rmatch s (CharSet cs)) k st =
  if bool_decide (length (take n (drop (pos st) s)) = n
                  ∧ Forall (λ c, in_set cs c = true) (take n (drop (pos st) s)))
  then k (MState (pos st + n) (caps st)) else None.
Proof.
  revert st. induction n as [|n IH]; intros [p cp].
  - cbn [Nat.iter pos caps]. rewrite bool_decide_eq_true_2; [|by rewrite take_0].
    by rewrite Nat.add_0_r.
  - rewrite Nat.iter_succ. cbn [rmatch pos caps]. destruct (s !! p) as [c|] eqn:Hp.
    + rewrite (drop_S _ _ _ Hp). rewrite firstn_cons.
      destruct (in_set cs c) eqn:Hc.
      * rewrite IH. cbn [advance pos caps]. replace (S p + n) with (p + S n) by lia.
        erewrite bool_decide_ext; [done|].
        rewrite Forall_cons. cbn [length].
        split; [intros [Hl Hf]; auto with lia | intros [Hl [_ Hf]]; split; [lia | done]].
      * rewrite bool_decide_eq_false_2; [done|].
        rewrite Forall_cons. intros (_ & ? & _). congruence.
    + rewrite drop_ge by (by apply lookup_ge_None).
      rewrite bool_decide_eq_false_2; [done|]. by intros [? _].
Qed.

Lemma rmatch_lit c k st :
  rmatch s (Lit c) k st =
  if bool_decide (s !! pos st = Some c) then k (advance st) else None.
Proof.
  cbn [rmatch]. destruct (s !! pos st) as [c'|] eqn:Hp.
  - destruct (N.eqb_spec c c') as [->|Hne].
    + by rewrite bool_decide_eq_true_2.
    + rewrite bool_decide_eq_false_2; [done|]. congruence.
  - by rewrite bool_decide_eq_false_2.
Qed.

(** [scan] over consecutive positions stops at the first one that matches. *)
Lemma scan_seq_Some r a n m :
  scan r s (seq a n) = Some m →
  ∃ i, a ≤ i < a + n ∧ match_at r s i = Some m
       ∧ ∀ j, a ≤ j < i → match_at r s j = None.
Proof.
  revert a. induction n as [|n IH]; intros a; cbn [seq scan]; [done|].
  destruct (match_at r s a) as [m'|] eqn:Ha.
  - intros [= ->]. exists a. split_and!; [lia..|done|lia].
  - intros (i & Hi & Hm & Hlt)%IH. exists i. split_and!; [lia..|done|].
    intros j Hj. destruct (decide (j = a)) as [->|]; [done|]. apply Hlt. lia.
Qed.

Lemma scan_seq_None r a n :
  scan r s (seq a n) = None → ∀ j, a ≤ j < a + n → match_at r s j = None.
Proof.
  revert a. induction n as [|n IH]; intros a; cbn [seq scan]; [lia|].
  destruct (match_at r s a) as [m'|] eqn:Ha; [done|].
  intros Hs j Hj. destruct (decide (j = a)) as [->|]; [done|].
  apply (IH _ Hs). lia.
Qed.

End matcher.

(** ** The pattern of [extract_video_id] *)

Section pattern.
Import Re.

Lemma rmatch_id_group (url : pystr) k st :
  rmatch url (Group 1 (Repeat 11 (CharSet id_alphabet))) k st =
  if bool_decide (is_video_id (take 11 (drop (pos st) url)))
  then k (MState (pos st + 11) (<[0 := Some (pos st, pos st + 11)]> (caps st)))
  else None.
Proof.
  change (rmatch url (Group 1 (Repeat 11 (CharSet id_alphabet))) k st)
    with (Nat.iter 11 (rmatch url (CharSet id_alphabet))
            (λ st', k (set_group 1 (pos st, pos st') st')) st).
  rewrite iter_charset. cbn [pos caps set_group pred].
  unfold set_group; cbn [pos caps pred].
  by rewrite (bool_decide_ext _ (is_video_id (take 11 (drop (pos st) url)))).
Qed.

Lemma rmatch_pattern (url : pystr) k st :
  rmatch url pattern k st =
  let tail := rmatch url (Group 1 (Repeat 11 (CharSet id_alphabet))) k in
  match rmatch url (Lit (ord "v")) (rmatch url (Lit (ord "=")) tail) st with
  | Some st' => Some st'
  | None => rmatch url (Lit (ord "/")) tail st
  end.
Proof. reflexivity. Qed.

(** One attempt of the pattern at position [i] finds exactly the candidate
    at [i], and group 1 of the match is its id. *)
Lemma match_at_pattern (url : pystr) i :
  match match_at pattern url i with
  | Some m => ∃ id, candidate_at url i = Some id ∧ group m 1 = Ok (Some id)
  | None => candidate_at url i = None
  end.
Proof.
  unfold match_at, candidate_at. rewrite rmatch_pattern. cbv zeta.
  rewrite !rmatch_lit, !rmatch_id_group. cbn [pos caps advance].
  change (replicate (ngroups pattern) None) with [None : option (nat * nat)].
  replace (S (S i)) with (i + 2) by lia. replace (S i) with (i + 1) by lia.
  cbn [list_insert insert].
  repeat case_bool_decide; cbn [group m_groups m_string lookup list_lookup slice];
    try done;
    try (exfalso; tauto);
    try (exfalso; destruct_and?; simplify_eq; fail).
  all: eexists; split; [done|]; cbn [caps lookup list_lookup]; unfold slice;
    do 3 f_equal; lia.
Qed.

Lemma candidate_at_lt (url : pystr) i id :
  candidate_at url i = Some id → i < length url.
Proof.
  unfold candidate_at. intros H.
  repeat case_bool_decide; simplify_eq; destruct_and?;
    by eapply lookup_lt_Some.
Qed.

(** The result is [None] when no position holds a candidate, and the id of
    the first candidate otherwise; nothing is ever raised. *)
Lemma extract_video_id_cases (url : pystr) :
  (extract_video_id url = Ok None ∧ ∀ i, candidate_at url i = None)
  ∨ (∃ i id, extract_video_id url = Ok (Some id)
             ∧ candidate_at url i = Some id
             ∧ ∀ j, j < i → candidate_at url j = None).
Proof.
  unfold extract_video_id, search.
  destruct (scan pattern url (seq 0 (S (length url)))) as [m|] eqn:Hs.
  - right. apply scan_seq_Some in Hs as (i & Hi & Hm & Hlt).
    pose proof (match_at_pattern url i) as Hp. rewrite Hm in Hp.
    destruct Hp as (id & Hc & Hg). exists i, id. split_and!; [done..|].
    intros j Hj. pose proof (match_at_pattern url j) as Hp.
    rewrite Hlt in Hp by lia. done.
  - left. split; [done|]. intros i.
    destruct (candidate_at url i) as [id|] eqn:Hc; [|done].
    pose proof (candidate_at_lt _ _ _ Hc).
    pose proof (match_at_pattern url i) as Hp.
    rewrite (scan_seq_None _ _ _ _ Hs i) in Hp by lia. congruence.
Qed.

Lemma is_video_id_take11 (id post : pystr) :
  is_video_id id → take 11 (id ++ post) = id.
Proof. intros [Hl _]. rewrite <-Hl. by rewrite take_app_length. Qed.

Lemma drop_after (pre pfx rest : pystr) n :
  n = length pre + length pfx → drop n (pre ++ pfx ++ rest) = rest.
Proof. intros ->. rewrite app_assoc. apply drop_app_length'. by rewrite length_app. Qed.

(** Candidates are the occurrences, read off by where the marker starts. *)
Lemma candidate_at_occurrence (url : pystr) i id :
  candidate_at url i = Some id ↔
  ∃ pre pfx post, length pre = i ∧ occurrence url pre pfx id post.
Proof.
  unfold candidate_at, occurrence, is_marker. split.
  - intros H. assert (Hi : i < length url) by by eapply candidate_at_lt.
    repeat case_bool_decide; simplify_eq; destruct_and?.
    + exists (take i url), (str "v="), (drop 11 (drop (i + 2) url)).
      split_and!; [rewrite length_take; lia| |by left|done].
      rewrite take_drop.
      replace (i + 2) with (S (S i)) by lia.
      rewrite <-(take_drop i url) at 1. f_equal.
      erewrite drop_S by done. erewrite drop_S; [done|].
      by replace (S i) with (i + 1) by lia.
    + exists (take i url), (str "/"), (drop 11 (drop (i + 1) url)).
      split_and!; [rewrite length_take; lia| |by right|done].
      rewrite take_drop. replace (i + 1) with (S i) by lia.
      rewrite <-(take_drop i url) at 1. f_equal. by erewrite drop_S.
  - intros (pre & pfx & post & <- & -> & [->| ->] & Hid).
    + rewrite (drop_after pre (str "v=") _ (length pre + 2)) by done.
      rewrite (lookup_app_r pre _ (length pre)) by lia.
      rewrite (lookup_app_r pre _ (length pre + 1)) by lia.
      replace (length pre - length pre) with 0 by lia.
      replace (length pre + 1 - length pre) with 1 by lia.
      rewrite is_video_id_take11 by done.
      by rewrite bool_decide_eq_true_2.
    + rewrite (drop_after pre (str "/") _ (length pre + 1)) by done.
      rewrite (lookup_app_r pre _ (length pre)) by lia.
      replace (length pre - length pre) with 0 by lia.
      rewrite is_video_id_take11 by done.
      rewrite bool_decide_eq_false_2 by (by intros [? _]).
      by rewrite bool_decide_eq_true_2.
Qed.
End pattern.

(** ** Extraction and the occurrences of a marked id *)

(** Replace the code points of character literals by their numbers. *)
Ltac eval_ord :=
  repeat match goal with
    | |- context [ord ?a] =>
        let n := eval vm_compute in (ord a) in change (ord a) with n
    end.

Section extraction.

Lemma marker_length (pfx : pystr) : is_marker pfx → 1 ≤ length pfx ≤ 2.
Proof. intros [-> | ->]; cbn; lia. Qed.

Lemma marker_head (url pre pfx rest : pystr) :
  url = pre ++ pfx ++ rest → is_marker pfx →
  (url !! length pre = Some (ord "v") ∧ pfx = str "v=")
  ∨ (url !! length pre = Some (ord "/") ∧ pfx = str "/").
Proof.
  intros -> [-> | ->]; [left|right]; (split; [|done]);
    rewrite lookup_app_r by lia;
    by replace (length pre - length pre) with 0 by lia.
Qed.

Lemma same_start_same_marker (url pre pfx rest pre' pfx' rest' : pystr) :
  url = pre ++ pfx ++ rest → url = pre' ++ pfx' ++ rest' →
  is_marker pfx → is_marker pfx' → length pre = length pre' → pfx = pfx'.
Proof.
  intros H1 H2 Hm Hm' Hl.
  destruct (marker_head _ _ _ _ H1 Hm) as [[Ha ->]|[Ha ->]],
    (marker_head _ _ _ _ H2 Hm') as [[Hb ->]|[Hb ->]];
    try done; rewrite Hl in Ha; rewrite Ha in Hb; by inversion Hb.
Qed.

Lemma no_earlier_candidate_leftmost (url pre : pystr) :
  (∀ j, j < length pre → candidate_at url j = None) → leftmost url pre.
Proof.
  intros Hnone pre' pfx' id' post' Hocc.
  destruct (decide (length pre ≤ length pre')) as [|Hlt]; [done|].
  assert (candidate_at url (length pre') = Some id') as Hc.
  { apply candidate_at_occurrence. by exists pre', pfx', post'. }
  rewrite Hnone in Hc by lia. done.
Qed.

(** Whenever some occurrence exists, the result is the id of the leftmost
    one. *)
Lemma extract_leftmost (url pre pfx id post : pystr) :
  occurrence url pre pfx id post →
  ∃ pre0 pfx0 id0 post0,
    extract_video_id url = Ok (Some id0)
    ∧ occurrence url pre0 pfx0 id0 post0
    ∧ leftmost url pre0
    ∧ (leftmost url pre → id0 = id).
Proof.
  intros Hocc.
  assert (candidate_at url (length pre) = Some id) as Hc.
  { apply candidate_at_occurrence. by exists pre, pfx, post. }
  destruct (extract_video_id_cases url) as [[_ Hnone]|(i & id0 & He & Hi & Hlt)].
  { by rewrite Hnone in Hc. }
  pose proof Hi as Hi'.
  apply candidate_at_occurrence in Hi' as (pre0 & pfx0 & post0 & <- & Hocc0).
  exists pre0, pfx0, id0, post0. split_and!; [done..| |].
  - by apply no_earlier_candidate_leftmost.
  - intros Hleft. specialize (Hleft _ _ _ _ Hocc0).
    destruct (decide (length pre0 = length pre)) as [Heq|Hne].
    + rewrite Heq in Hi. congruence.
    + rewrite Hlt in Hc by lia. done.
Qed.

Lemma extract_Some_occurrence (url id : pystr) :
  extract_video_id url = Ok (Some id) →
  ∃ pre pfx post, occurrence url pre pfx id post ∧ leftmost url pre.
Proof.
  intros He.
  destruct (extract_video_id_cases url) as [[He' _]|(i & id0 & He' & Hi & Hlt)];
    rewrite He in He'; simplify_eq.
  apply candidate_at_occurrence in Hi as (pre0 & pfx0 & post0 & <- & Hocc0).
  exists pre0, pfx0, post0. split; [done|].
  by apply no_earlier_candidate_leftmost.
Qed.

Lemma no_occurrence_extract_None (url : pystr) :
  (∀ pre pfx id post, ¬ occurrence url pre pfx id post) →
  extract_video_id url = Ok None.
Proof.
  intros Hno.
  destruct (extract_video_id_cases url) as [[He _]|(i & id0 & _ & Hi & _)];
    [done|].
  apply candidate_at_occurrence in Hi as (pre0 & pfx0 & post0 & _ & Hocc0).
  by destruct (Hno _ _ _ _ Hocc0).
Qed.

(** A way to check on a given string that it holds no occurrence. *)
Lemma no_candidate_no_occurrence (url : pystr) :
  forallb (λ i, bool_decide (candidate_at url i = None)) (seq 0 (length url))
  = true →
  ∀ pre pfx id post, ¬ occurrence url pre pfx id post.
Proof.
  intros Hall pre pfx id post Hocc.
  assert (candidate_at url (length pre) = Some id) as Hc.
  { apply candidate_at_occurrence. by exists pre, pfx, post. }
  pose proof (candidate_at_lt _ _ _ Hc) as Hlt.
  rewrite forallb_forall in Hall.
  specialize (Hall (length pre)). rewrite in_seq in Hall.
  apply bool_decide_eq_true_1 in Hall; [congruence|lia].
Qed.

(** The same check for the positions before a given one. *)
Lemma no_candidate_before_leftmost (url pre : pystr) :
  forallb (λ i, bool_decide (candidate_at url i = None)) (seq 0 (length pre))
  = true →
  leftmost url pre.
Proof.
  intros Hall. apply no_earlier_candidate_leftmost. intros j Hj.
  rewrite forallb_forall in Hall.
  specialize (Hall j). rewrite in_seq in Hall.
  eapply bool_decide_eq_true_1, Hall. lia.
Qed.

(** A string without ["/"] and without ["="] holds no marker at all. *)
Lemma no_marker_char_extract_None (url : pystr) :
  Forall (λ c, c ≠ ord "/" ∧ c ≠ ord "=") url →
  extract_video_id url = Ok None.
Proof.
  intros Hall. apply no_occurrence_extract_None.
  intros pre pfx id post (-> & Hm & _).
  rewrite !Forall_app in Hall. destruct Hall as (_ & Hpfx & _).
  destruct Hm as [-> | ->].
  - apply Forall_cons_1 in Hpfx as [_ Hpfx].
    apply Forall_cons_1 in Hpfx as [[_ He] _]. by apply He.
  - apply Forall_cons_1 in Hpfx as [[Hs _] _]. by apply Hs.
Qed.

Lemma is_id_char_spec (c : N) :
  is_id_char c = true ↔
  (48 ≤ c ≤ 57 ∨ 65 ≤ c ≤ 90 ∨ 97 ≤ c ≤ 122 ∨ c = 95 ∨ c = 45)%N.
Proof.
  unfold is_id_char, id_alphabet, Re.in_set. cbn [existsb Re.in_item].
  eval_ord.
  rewrite !orb_true_iff, !andb_true_iff, !N.leb_le, !N.eqb_eq.
  intuition (discriminate || lia).
Qed.

Lemma id_char_not_marker_char (c : N) :
  is_id_char c = true → c ≠ ord "/" ∧ c ≠ ord "=".
Proof. intros Hc%is_id_char_spec. eval_ord. lia. Qed.

End extraction.

(** ** The flow monad *)

Section flow.

Lemma bind_emit {A} e (k : () → ui A) tr : (emit e ≫= k) tr = k () (tr ++ [e]).
Proof. reflexivity. Qed.

Lemma bind_mret {A B} (a : A) (k : A → ui B) tr : (mret a ≫= k) tr = k a tr.
Proof. reflexivity. Qed.

Lemma bind_return {A B} (k : A → ui B) tr : (return_ ≫= k) tr = (Returned, tr).
Proof. reflexivity. Qed.

Lemma bind_lift {A B} (r : result A) (k : A → ui B) tr :
  (lift r ≫= k) tr =
  match r with Ok a => k a tr | Raise e => (Raised e, tr) end.
Proof. by destruct r. Qed.

Lemma bind_bind {A B C} (m : ui A) (f : A → ui B) (g : B → ui C) tr :
  ((m ≫= f) ≫= g) tr = (m ≫= λ a, f a ≫= g) tr.
Proof. cbv [mbind ui_bind]. by destruct (m tr) as [[]]. Qed.

End flow.

Create Rewrite HintDb ui.
#[global] Hint Rewrite @bind_emit @bind_mret @bind_return @bind_lift @bind_bind : ui.

Section page.

Lemma fetch_transcript_unfold (w : session) video_id tr :
  fetch_transcript w video_id tr =
  match get_transcript w video_id with
  | Ok transcript_list =>
      match items ← mapM (λ entry : entry, getitem entry (str "text"))
                         transcript_list;
            str_join newline items with
      | Ok transcript => (Normal transcript, tr ++ [GetTranscript video_id])
      | Raise e => (Raised e, tr ++ [GetTranscript video_id])
      end
  | Raise e => (Raised e, tr ++ [GetTranscript video_id])
  end.
Proof.
  unfold fetch_transcript. autorewrite with ui.
  destruct (get_transcript w video_id) as [l|e]; [|reflexivity].
  unfold lift. by destruct (mapM _ l ≫= _).
Qed.

(** A run on which the button was not pressed only draws the page. *)
Lemma run_not_clicked url api :
  run (Session url false api) = (Normal (), page_header).
Proof. reflexivity. Qed.

(** The run after a press of the button, path by path. *)
Lemma run_clicked url api :
  run (Session url true api) =
  match url with
  | [] => (Returned, page_header ++ [StError (str "Please enter a YouTube URL.")])
  | _ :: _ =>
      match extract_video_id url with
      | Raise e => (Raised e, page_header ++ [CallExtractVideoId url])
      | Ok None =>
          (Returned,
           page_header ++
           [CallExtractVideoId url;
            StError (str "Invalid YouTube URL. Please check the link and try again.")])
      | Ok (Some video_id) =>
          let before :=
            page_header ++
            [CallExtractVideoId url; StSpinnerEnter (str "Fetching transcript...");
             CallFetchTranscript video_id] in
          match fetch_transcript (Session url true api) video_id before with
          | (Normal transcript, tr) =>
              (Normal (),
               tr ++
               [StSpinnerExit; StSuccess (str "Transcript fetched successfully!");
                StWrite (str "Below is the transcript of your video. You can scroll and copy.");
                StTextArea (str "Transcript") transcript 300
                  (str "Click inside and press Ctrl+A to select all.");
                StDownloadButton (str "Download Transcript as .txt") transcript
                  (str "youtube_transcript.txt") (str "text/plain")])
          | (Returned, tr) => (Returned, tr ++ [StSpinnerExit])
          | (Raised exc, tr) =>
              (Returned,
               tr ++
               [StError (str "Sorry, there was a problem fetching the transcript: "
                         ++ exc_str exc ++ str ".");
                StSpinnerExit])
          end
      end
  end.
Proof.
  unfold run, main, st_text_input, st_button. autorewrite with ui.
  cbn [video_url_value fetch_button_clicked].
  destruct url as [|c url]; [reflexivity|]. autorewrite with ui.
  destruct (extract_video_id (c :: url)) as [[video_id|]|e]; [|reflexivity..].
  cbv zeta. unfold with_spinner, try_except, page_header.
  cbv [mbind ui_bind emit]. cbn [app].
  destruct (fetch_transcript _ _ _) as [[transcript| |exc] tr];
    cbv [return_]; by rewrite <-?app_assoc.
Qed.

(** The run of the scenario with the segments "Hello" and "world": the
    joined text goes to the text area and to the download button. *)
Example run_hello_world :
  let tr := snd (run (Session (str "https://youtu.be/dQw4w9WgXcQ") true
                        hello_world_service)) in
  errors tr = []
  ∧ fetcher_calls tr = [str "dQw4w9WgXcQ"; str "dQw4w9WgXcQ"]
  ∧ transcripts_shown tr
    = [str "Hello" ++ newline ++ str "world";
       str "Hello" ++ newline ++ str "world"].
Proof. vm_compute. done. Qed.

(** A segment without text is met while the items are drawn, before the
    first item is refused for not being a string. *)
Example missing_text_is_met_first :
  fst (fetch_transcript
         (Session [] true (λ _, Ok [ {[ str "text" := PyFloat 0 ]}; ∅ ]))
         (str "dQw4w9WgXcQ") [])
  = Raised (KeyError (str "text")).
Proof. vm_compute. reflexivity. Qed.

End page.

(** * The extractor *)

(** Decide a closed, decidable statement by evaluation. *)
Ltac by_compute := apply (bool_decide_eq_true_1 _); vm_compute; reflexivity.

(** C1, as amended: when the input holds a marker ([v=] or [/]) directly
    followed by 11 characters of the alphabet, [extract_video_id] returns a
    value, and that value is the id of the leftmost such occurrence; it is
    the id of the given occurrence when no other occurrence starts before
    it. *)
Theorem extract_returns_leftmost_occurrence (url pre pfx id post : pystr) :
  occurrence url pre pfx id post →
  ∃ pre0 pfx0 id0 post0,
    extract_video_id url = Ok (Some id0)
    ∧ occurrence url pre0 pfx0 id0 post0
    ∧ leftmost url pre0
    ∧ (leftmost url pre → extract_video_id url = Ok (Some id)).
Proof.
  intros Hocc.
  destruct (extract_leftmost _ _ _ _ _ Hocc)
    as (pre0 & pfx0 & id0 & post0 & He & Hocc0 & Hleft0 & Hsame).
  exists pre0, pfx0, id0, post0. split_and!; [done..|].
  intros Hleft. by rewrite He, (Hsame Hleft).
Qed.

Lemma extract_returns_leftmost_occurrence_witness :
  extract_video_id (str "https://www.youtube.com/watch?v=dQw4w9WgXcQ&t=30s")
  = Ok (Some (str "dQw4w9WgXcQ")).
Proof.
  destruct (extract_returns_leftmost_occurrence
              (str "https://www.youtube.com/watch?v=dQw4w9WgXcQ&t=30s")
              (str "https://www.youtube.com/watch?") (str "v=")
              (str "dQw4w9WgXcQ") (str "&t=30s"))
    as (_ & _ & _ & _ & _ & _ & _ & Hsame).
  - by_compute.
  - apply Hsame, no_candidate_before_leftmost. vm_compute. reflexivity.
Defined.

(** The id after [v=] is in the input, yet the result is the 11 characters
    after the first [/] that has 11 characters of the alphabet behind it. *)
Lemma later_occurrence_not_returned :
  occurrence (str "https://www.youtube.com/attribution_link?v=dQw4w9WgXcQ")
    (str "https://www.youtube.com/attribution_link?") (str "v=")
    (str "dQw4w9WgXcQ") []
  ∧ extract_video_id
      (str "https://www.youtube.com/attribution_link?v=dQw4w9WgXcQ")
    = Ok (Some (str "attribution"))
  ∧ extract_video_id
      (str "https://www.youtube.com/attribution_link?v=dQw4w9WgXcQ")
    ≠ Ok (Some (str "dQw4w9WgXcQ")).
Proof.
  split_and!; [by_compute | vm_compute; reflexivity | vm_compute; discriminate].
Qed.

(** C2: a result other than [None] is 11 characters of the alphabet, stands
    in the input right after a marker, and no occurrence starts before it,
    whether one looks at where the markers or where the ids begin. *)
Theorem extract_result_is_first_marked_id (url id : pystr) :
  extract_video_id url = Ok (Some id) →
  length id = 11
  ∧ Forall (λ c, is_id_char c = true) id
  ∧ ∃ pre pfx post,
      url = pre ++ pfx ++ id ++ post
      ∧ is_marker pfx
      ∧ ∀ pre' pfx' id' post',
          occurrence url pre' pfx' id' post' →
          length pre ≤ length pre'
          ∧ length (pre ++ pfx) ≤ length (pre' ++ pfx').
Proof.
  intros (pre & pfx & post & (Hurl & Hm & Hlen & Hchars) & Hleft)
    %extract_Some_occurrence.
  split_and!; [done..|]. exists pre, pfx, post. split_and!; [done..|].
  intros pre' pfx' id' post' Hocc'. pose proof (Hleft _ _ _ _ Hocc') as Hle.
  split; [done|]. destruct Hocc' as (Hurl' & Hm' & _).
  rewrite !length_app.
  destruct (decide (length pre = length pre')) as [Heq|Hne].
  - by rewrite (same_start_same_marker _ _ _ _ _ _ _ Hurl Hurl' Hm Hm' Heq), Heq.
  - apply marker_length in Hm, Hm'. lia.
Qed.

Lemma extract_result_is_first_marked_id_witness :
  length (str "dQw4w9WgXcQ") = 11
  ∧ Forall (λ c, is_id_char c = true) (str "dQw4w9WgXcQ")
  ∧ ∃ pre pfx post,
      str "https://youtu.be/dQw4w9WgXcQ?t=5"
      = pre ++ pfx ++ str "dQw4w9WgXcQ" ++ post
      ∧ is_marker pfx
      ∧ ∀ pre' pfx' id' post',
          occurrence (str "https://youtu.be/dQw4w9WgXcQ?t=5")
            pre' pfx' id' post' →
          length pre ≤ length pre'
          ∧ length (pre ++ pfx) ≤ length (pre' ++ pfx').
Proof.
  apply (extract_result_is_first_marked_id
           (str "https://youtu.be/dQw4w9WgXcQ?t=5") (str "dQw4w9WgXcQ")).
  vm_compute. reflexivity.
Defined.

(** C4: an input without any marker directly followed by 11 characters of
    the alphabet gives [None]; so does an 11-character id given alone. *)
Theorem extract_none_without_marked_id (url : pystr) :
  ((∀ pre pfx id post, ¬ occurrence url pre pfx id post) →
   extract_video_id url = Ok None)
  ∧ (is_video_id url → extract_video_id url = Ok None).
Proof.
  split; [apply no_occurrence_extract_None|].
  intros [_ Hchars]. apply no_marker_char_extract_None.
  eapply Forall_impl; [done|]. apply id_char_not_marker_char.
Qed.

Lemma extract_none_without_marked_id_witness :
  extract_video_id (str "not a url") = Ok None
  ∧ extract_video_id (str "dQw4w9WgXcQ") = Ok None.
Proof.
  split.
  - apply (proj1 (extract_none_without_marked_id (str "not a url"))).
    apply no_candidate_no_occurrence. vm_compute. reflexivity.
  - apply (proj2 (extract_none_without_marked_id (str "dQw4w9WgXcQ"))).
    by_compute.
Defined.

(** C5: the two URLs of the scenarios give the id [dQw4w9WgXcQ]; what comes
    after the id in the second one does not matter. *)
Theorem extract_scenario_urls :
  extract_video_id (str "https://www.youtube.com/watch?v=dQw4w9WgXcQ")
  = Ok (Some (str "dQw4w9WgXcQ"))
  ∧ extract_video_id (str "https://youtu.be/dQw4w9WgXcQ?t=5")
    = Ok (Some (str "dQw4w9WgXcQ")).
Proof. split; vm_compute; reflexivity. Qed.

(** C8: on every string [extract_video_id] gives a result and raises
    nothing (group 1 always exists in a match), the result, when there is
    one, is determined by the input, and running it inside the page leaves
    the trace as it was. *)
Theorem extract_total_deterministic_pure (url : pystr) :
  (∃ r, extract_video_id url = Ok r)
  ∧ (∀ url', url' = url → extract_video_id url' = extract_video_id url)
  ∧ (∀ tr, ∃ r, lift (extract_video_id url) tr = (Normal r, tr)).
Proof.
  assert (∃ r, extract_video_id url = Ok r) as [r Hr].
  { destruct (extract_video_id_cases url) as [[He _]|(i & id & He & _)]; eauto. }
  split_and!; [by eexists | by intros ? -> |].
  intros tr. exists r. by rewrite Hr.
Qed.

Lemma extract_total_deterministic_pure_witness :
  extract_video_id (str "not" ++ str " a url") = extract_video_id (str "not a url").
Proof.
  apply (proj1 (proj2 (extract_total_deterministic_pure (str "not a url")))).
  reflexivity.
Defined.

(** C9, as amended: a marker followed by more than 11 characters of the
    alphabet is an occurrence like any other: a value is returned, the id of
    the leftmost occurrence, and it is the first 11 characters of that run
    when no occurrence starts before its marker. *)
Theorem extract_overlong_run (url pre pfx run post : pystr) :
  url = pre ++ pfx ++ run ++ post →
  is_marker pfx →
  11 < length run →
  Forall (λ c, is_id_char c = true) run →
  ∃ pre0 pfx0 id0 post0,
    extract_video_id url = Ok (Some id0)
    ∧ occurrence url pre0 pfx0 id0 post0
    ∧ leftmost url pre0
    ∧ (leftmost url pre → extract_video_id url = Ok (Some (take 11 run))).
Proof.
  intros Hurl Hm Hlen Hchars.
  assert (occurrence url pre pfx (take 11 run) (drop 11 run ++ post)) as Hocc.
  { split_and!; [|done|].
    - by rewrite (assoc_L (++) (take 11 run)), take_drop.
    - split; [rewrite length_take; lia | by apply Forall_take]. }
  destruct (extract_leftmost _ _ _ _ _ Hocc)
    as (pre0 & pfx0 & id0 & post0 & He & Hocc0 & Hleft0 & Hsame).
  exists pre0, pfx0, id0, post0. split_and!; [done..|].
  intros Hleft. by rewrite He, (Hsame Hleft).
Qed.

Lemma extract_overlong_run_witness :
  extract_video_id (str "https://youtu.be/dQw4w9WgXcQZ")
  = Ok (Some (str "dQw4w9WgXcQ")).
Proof.
  destruct (extract_overlong_run (str "https://youtu.be/dQw4w9WgXcQZ")
              (str "https://youtu.be") (str "/") (str "dQw4w9WgXcQZ") [])
    as (_ & _ & _ & _ & _ & _ & _ & Hfirst).
  - reflexivity.
  - by_compute.
  - vm_compute. lia.
  - by_compute.
  - apply Hfirst, no_candidate_before_leftmost. vm_compute. reflexivity.
Defined.

(** A run of 12 characters follows [v=], yet the result is not its first 11
    characters: an occurrence starts earlier. *)
Lemma overlong_run_after_earlier_id_not_returned :
  str "https://youtu.be/aaaaaaaaaaa?v=bbbbbbbbbbbb"
  = str "https://youtu.be/aaaaaaaaaaa?" ++ str "v=" ++ str "bbbbbbbbbbbb" ++ []
  ∧ is_marker (str "v=")
  ∧ 11 < length (str "bbbbbbbbbbbb")
  ∧ Forall (λ c, is_id_char c = true) (str "bbbbbbbbbbbb")
  ∧ extract_video_id (str "https://youtu.be/aaaaaaaaaaa?v=bbbbbbbbbbbb")
    = Ok (Some (str "aaaaaaaaaaa"))
  ∧ extract_video_id (str "https://youtu.be/aaaaaaaaaaa?v=bbbbbbbbbbbb")
    ≠ Ok (Some (take 11 (str "bbbbbbbbbbbb"))).
Proof.
  split_and!; [reflexivity | by_compute | vm_compute; lia | by_compute
              | vm_compute; reflexivity | vm_compute; discriminate].
Qed.

(** * The transcript *)

Section join.

Lemma join_strs_cons_app (sep a x : pystr) rest :
  join_strs sep ((a ++ x) :: rest) = a ++ join_strs sep (x :: rest).
Proof. destruct rest; cbn [join_strs]; by rewrite <-?app_assoc. Qed.

(** [str.join] lays the texts out as the sum written in the spec. *)
Lemma join_strs_newline_joined (texts : list pystr) :
  join_strs newline texts = newline_joined texts.
Proof.
  destruct texts as [|t1 rest]; [done|]. cbn [newline_joined].
  revert t1. induction rest as [|t2 rest IH]; intros t1; [done|].
  cbn [foldl]. rewrite <-IH, join_strs_cons_app. cbn [join_strs].
  by destruct rest.
Qed.

Lemma mapM_getitem_text (segs : list entry) (texts : list pystr) :
  Forall2 (λ (seg : entry) t, seg !! str "text" = Some (PyStr t)) segs texts →
  mapM (λ entry : entry, getitem entry (str "text")) segs
  = Ok (PyStr <$> texts).
Proof.
  induction 1 as [|seg t segs texts Hseg _ IH]; [done|].
  change (mapM ?f (seg :: segs))
    with (y ← getitem seg (str "text"); k ← mapM f segs; mret (y :: k)).
  rewrite IH. unfold getitem. by rewrite Hseg.
Qed.

Lemma check_strs_texts i (texts : list pystr) :
  check_strs i (PyStr <$> texts) = Ok texts.
Proof.
  revert i. induction texts as [|t texts IH]; intros i; [done|].
  cbn. by rewrite IH.
Qed.

End join.

(** C3: when the service answers with segments whose texts are [t1..tN],
    [fetch_transcript] gives [t1 + "\n" + ... + "\n" + tN], and the empty
    string when there is no segment. *)
Theorem fetch_transcript_joins_texts
    (w : session) (video_id : pystr) (segs : list entry)
    (texts : list pystr) (tr : list event) :
  get_transcript w video_id = Ok segs →
  Forall2 (λ (seg : entry) t, seg !! str "text" = Some (PyStr t)) segs texts →
  fetch_transcript w video_id tr
  = (Normal (newline_joined texts), tr ++ [GetTranscript video_id])
  ∧ (segs = [] →
     fetch_transcript w video_id tr = (Normal [], tr ++ [GetTranscript video_id])).
Proof.
  intros Hapi Htexts.
  assert (fetch_transcript w video_id tr
          = (Normal (newline_joined texts), tr ++ [GetTranscript video_id]))
    as Hfetch.
  { rewrite fetch_transcript_unfold, Hapi, (mapM_getitem_text _ _ Htexts).
    cbn [mbind result_bind]. unfold str_join. rewrite check_strs_texts.
    cbn [mbind result_bind mret result_ret].
    by rewrite join_strs_newline_joined. }
  split; [done|]. intros ->. apply Forall2_nil_inv_l in Htexts as ->.
  by rewrite Hfetch.
Qed.

Lemma fetch_transcript_joins_texts_witness :
  fetch_transcript
    (Session (str "https://youtu.be/dQw4w9WgXcQ") true hello_world_service)
    (str "dQw4w9WgXcQ") []
  = (Normal (str "Hello" ++ newline ++ str "world"),
     [GetTranscript (str "dQw4w9WgXcQ")]).
Proof.
  refine (proj1 (fetch_transcript_joins_texts
                   (Session (str "https://youtu.be/dQw4w9WgXcQ") true
                      hello_world_service)
                   (str "dQw4w9WgXcQ") _ [str "Hello"; str "world"] [] _ _)).
  - reflexivity.
  - repeat constructor; vm_compute; reflexivity.
Defined.

(** * The button *)

Section messages.

Lemma errors_app tr1 tr2 : errors (tr1 ++ tr2) = errors tr1 ++ errors tr2.
Proof. apply omap_app. Qed.

Lemma transcripts_shown_app tr1 tr2 :
  transcripts_shown (tr1 ++ tr2) = transcripts_shown tr1 ++ transcripts_shown tr2.
Proof. apply omap_app. Qed.

Lemma whitespace_not_marker_char (c : N) :
  is_whitespace c = true → c ≠ ord "/" ∧ c ≠ ord "=".
Proof.
  intros Hc. eval_ord. split; intros ->; vm_compute in Hc; discriminate.
Qed.

End messages.

(** C6: after a press of the button with nothing in the field the page
    shows "Please enter a YouTube URL." and the run ends there, neither the
    extractor nor the fetcher having been called; with a text in which the
    extractor finds nothing it shows "Invalid YouTube URL. ..." and the
    fetcher is not called. *)
Theorem empty_and_invalid_input_messages (w : session) :
  fetch_button_clicked w = true →
  (video_url_value w = [] →
   fst (run w) = Returned
   ∧ errors (snd (run w)) = [str "Please enter a YouTube URL."]
   ∧ last (snd (run w)) = Some (StError (str "Please enter a YouTube URL."))
   ∧ extractor_calls (snd (run w)) = []
   ∧ fetcher_calls (snd (run w)) = [])
  ∧ (video_url_value w ≠ [] →
     extract_video_id (video_url_value w) = Ok None →
     fst (run w) = Returned
     ∧ errors (snd (run w))
       = [str "Invalid YouTube URL. Please check the link and try again."]
     ∧ last (snd (run w))
       = Some (StError (str "Invalid YouTube URL. Please check the link and try again."))
     ∧ fetcher_calls (snd (run w)) = []).
Proof.
  destruct w as [url clicked api]. cbn [fetch_button_clicked video_url_value].
  intros ->. rewrite run_clicked. split.
  - intros ->. by split_and!.
  - intros Hne Hnone. destruct url as [|c url]; [done|]. rewrite Hnone.
    by split_and!.
Qed.

Lemma empty_and_invalid_input_messages_witness :
  errors (snd (run (Session [] true hello_world_service)))
  = [str "Please enter a YouTube URL."]
  ∧ errors (snd (run (Session (str "not a url") true hello_world_service)))
    = [str "Invalid YouTube URL. Please check the link and try again."].
Proof.
  split.
  - apply (proj1 (empty_and_invalid_input_messages
                    (Session [] true hello_world_service) eq_refl) eq_refl).
  - apply (proj2 (empty_and_invalid_input_messages
                    (Session (str "not a url") true hello_world_service)
                    eq_refl)).
    + discriminate.
    + vm_compute. reflexivity.
Defined.

(** C7: when an id was found and the service raises an error whose
    description is [d], the page shows "Sorry, there was a problem fetching
    the transcript: " followed by [d] and a full stop, the run ends there
    and no transcript is put in the text area or behind the download
    button. *)
Theorem fetch_error_message (w : session) (video_id d : pystr) (exc : exn) :
  fetch_button_clicked w = true →
  extract_video_id (video_url_value w) = Ok (Some video_id) →
  get_transcript w video_id = Raise exc →
  exc_str exc = d →
  fst (run w) = Returned
  ∧ errors (snd (run w))
    = [str "Sorry, there was a problem fetching the transcript: " ++ d ++ str "."]
  ∧ transcripts_shown (snd (run w)) = []
  ∧ (d = str "No transcripts available" →
     errors (snd (run w))
     = [str "Sorry, there was a problem fetching the transcript: No transcripts available."]).
Proof.
  destruct w as [url clicked api].
  cbn [fetch_button_clicked video_url_value get_transcript].
  intros -> Hid Hapi <-. rewrite run_clicked.
  destruct url as [|c url]; [by vm_compute in Hid|]. rewrite Hid. cbv zeta.
  rewrite fetch_transcript_unfold. cbn [get_transcript]. rewrite Hapi.
  cbn [fst snd]. rewrite !errors_app, !transcripts_shown_app.
  split_and!; [done..|]. by intros ->.
Qed.

Lemma fetch_error_message_witness :
  errors (snd (run (Session (str "https://youtu.be/dQw4w9WgXcQ") true
                      no_transcript_service)))
  = [str "Sorry, there was a problem fetching the transcript: No transcripts available."].
Proof.
  apply (fetch_error_message
           (Session (str "https://youtu.be/dQw4w9WgXcQ") true
              no_transcript_service)
           (str "dQw4w9WgXcQ") (str "No transcripts available")
           (ApiError (str "No transcripts available"))).
  - reflexivity.
  - vm_compute. reflexivity.
  - reflexivity.
  - reflexivity.
  - reflexivity.
Defined.

(** C10: only the empty string counts as no input.  After a press of the
    button "Please enter a YouTube URL." is shown exactly when the field is
    empty; a text made of whitespace alone goes to the extractor, which
    finds nothing, and "Invalid YouTube URL. ..." is shown. *)
Theorem whitespace_input_is_invalid (w : session) :
  fetch_button_clicked w = true →
  (str "Please enter a YouTube URL." ∈ errors (snd (run w))
   ↔ video_url_value w = [])
  ∧ (video_url_value w ≠ [] →
     Forall (λ c, is_whitespace c = true) (video_url_value w) →
     extractor_calls (snd (run w)) = [video_url_value w]
     ∧ extract_video_id (video_url_value w) = Ok None
     ∧ errors (snd (run w))
       = [str "Invalid YouTube URL. Please check the link and try again."]).
Proof.
  destruct w as [url clicked api]. cbn [fetch_button_clicked video_url_value].
  intros ->. rewrite run_clicked. split.
  - destruct url as [|c url]; [split; [done|intros _; vm_compute; left]|].
    split; [|done]. intros Hin. exfalso.
    destruct (extract_video_id (c :: url)) as [[video_id|]|e].
    + cbv zeta in Hin. rewrite fetch_transcript_unfold in Hin.
      cbn [get_transcript] in Hin.
      destruct (api video_id) as [segs|e];
        [destruct (mbind _ _) as [transcript|e]|];
        cbn [snd] in Hin; rewrite !errors_app in Hin;
        unfold page_header in Hin; cbn [errors omap list_omap app] in Hin.
      * by apply elem_of_nil in Hin.
      * apply list_elem_of_singleton in Hin. vm_compute in Hin. discriminate.
      * apply list_elem_of_singleton in Hin. vm_compute in Hin. discriminate.
    + unfold page_header in Hin. cbn [snd errors omap list_omap app] in Hin.
      apply list_elem_of_singleton in Hin. vm_compute in Hin. discriminate.
    + unfold page_header in Hin. cbn [snd errors omap list_omap app] in Hin.
      by apply elem_of_nil in Hin.
  - intros Hne Hws. destruct url as [|c url]; [done|].
    assert (extract_video_id (c :: url) = Ok None) as Hnone.
    { apply no_marker_char_extract_None.
      eapply Forall_impl; [done|]. apply whitespace_not_marker_char. }
    rewrite Hnone. by split_and!.
Qed.

Lemma whitespace_input_is_invalid_witness :
  extractor_calls (snd (run (Session (str "   ") true hello_world_service)))
  = [str "   "]
  ∧ extract_video_id (str "   ") = Ok None
  ∧ errors (snd (run (Session (str "   ") true hello_world_service)))
    = [str "Invalid YouTube URL. Please check the link and try again."].
Proof.
  apply (proj2 (whitespace_input_is_invalid
                  (Session (str "   ") true hello_world_service) eq_refl)).
  - discriminate.
  - by_compute.
Defined.

(** * Further properties of the extractor *)

Section extractor_more.

Lemma candidate_at_inv (url : pystr) j id :
  candidate_at url j = Some id →
  ∃ k, (k = j + 2 ∧ url !! j = Some (ord "v") ∧ url !! (j + 1) = Some (ord "=")
        ∨ k = j + 1 ∧ url !! j = Some (ord "/"))
       ∧ id = take 11 (drop k url) ∧ is_video_id id.
Proof.
  unfold candidate_at. intros H.
  repeat case_bool_decide; simplify_eq; destruct_and?;
    [exists (j + 2) | exists (j + 1)]; split_and!; auto.
Qed.

Lemma video_id_window (url : pystr) k :
  is_video_id (take 11 (drop k url)) →
  k + 11 ≤ length url
  ∧ ∀ m c, m < 11 → url !! (k + m) = Some c → is_id_char c = true.
Proof.
  intros [Hlen Hchars]. split.
  - rewrite length_take, length_drop in Hlen. lia.
  - intros m c Hm Hc. rewrite Forall_lookup in Hchars. apply (Hchars m).
    by rewrite lookup_take_lt, lookup_drop.
Qed.

Lemma run_broken_spec (pre tail : pystr) k :
  run_broken pre k = true → ¬ is_video_id (take 11 (drop k (pre ++ tail))).
Proof.
  unfold run_broken. rewrite existsb_exists.
  intros (m & Hm%in_seq & Hbad) Hid.
  destruct (pre !! (k + m)) as [c|] eqn:Hc; [|done].
  apply video_id_window in Hid as [_ Hid].
  rewrite (Hid m c) in Hbad; [done|lia|].
  by apply lookup_app_l_Some.
Qed.

(** When [pre] rules out a match at each index below [n], none starts there
    in any text that begins with [pre]. *)
Lemma no_match_starts_in_spec (pre tail : pystr) n j :
  no_match_starts_in pre n = true → n ≤ length pre → j < n →
  candidate_at (pre ++ tail) j = None.
Proof.
  unfold no_match_starts_in. rewrite forallb_forall. intros Hall Hn Hjn.
  assert (j < length pre) as Hj by lia.
  specialize (Hall j). rewrite in_seq in Hall.
  assert (ruled_out pre j = true) as Hr by (apply Hall; lia). clear Hall.
  destruct (candidate_at (pre ++ tail) j) as [id|] eqn:Hc; [exfalso|done].
  apply candidate_at_inv in Hc as (k & Hk & -> & Hid).
  unfold ruled_out in Hr.
  destruct (lookup_lt_is_Some_2 pre j Hj) as [c Hpc]. rewrite Hpc in Hr.
  rewrite (lookup_app_l pre tail j Hj), Hpc in Hk.
  destruct Hk as [(-> & [= ->] & Hk)|(-> & [= ->])].
  - change (ord "v" =? ord "/")%N with false in Hr.
    change (ord "v" =? ord "v")%N with true in Hr. cbv iota in Hr.
    destruct (pre !! (j + 1)) as [c1|] eqn:Hc1; [|done].
    rewrite (lookup_app_l_Some _ _ _ _ Hc1) in Hk. injection Hk as ->.
    change (ord "=" =? ord "=")%N with true in Hr. cbv iota in Hr.
    by apply (run_broken_spec pre tail (j + 2)).
  - change (ord "/" =? ord "/")%N with true in Hr. cbv iota in Hr.
    by apply (run_broken_spec pre tail (j + 1)).
Qed.

Lemma extract_after_clean_prefix (pre pfx id rest : pystr) :
  no_match_starts_in (pre ++ pfx) (length pre) = true →
  is_marker pfx → is_video_id id →
  extract_video_id (pre ++ pfx ++ id ++ rest) = Ok (Some id).
Proof.
  intros Hpre Hm Hid.
  destruct (extract_leftmost (pre ++ pfx ++ id ++ rest) pre pfx id rest)
    as (pre0 & pfx0 & id0 & post0 & He & _ & _ & Hsame); [done|].
  rewrite He, Hsame; [done|].
  apply no_earlier_candidate_leftmost. intros j Hj.
  rewrite (assoc_L (++) pre pfx).
  apply (no_match_starts_in_spec _ _ (length pre)); [done| |done].
  rewrite length_app. lia.
Qed.

Lemma candidate_at_app (url suffix : pystr) j id :
  candidate_at url j = Some id → candidate_at (url ++ suffix) j = Some id.
Proof.
  intros (pre & pfx & post & Hl & Hurl & Hm & Hid)%candidate_at_occurrence.
  apply candidate_at_occurrence. exists pre, pfx, (post ++ suffix).
  split; [done|]. split_and!; [|done..].
  by rewrite Hurl, <-!app_assoc.
Qed.

Lemma take_drop_app_le (l l' : pystr) k n :
  k + n ≤ length l → take n (drop k (l ++ l')) = take n (drop k l).
Proof.
  intros Hle. rewrite drop_app_le by lia. apply take_app_le.
  rewrite length_drop. lia.
Qed.

Lemma candidate_at_app_None (url suffix : pystr) j :
  j + 13 ≤ length url →
  candidate_at url j = None → candidate_at (url ++ suffix) j = None.
Proof.
  intros Hlen. unfold candidate_at.
  rewrite !(take_drop_app_le url suffix) by lia.
  rewrite !(lookup_app_l url suffix) by lia. done.
Qed.

End extractor_more.

(** X1: the id is found in the usual forms of a link, whatever the id and
    whatever follows it: the watch page, the short [youtu.be] link, the
    embedded player and a short. *)
Theorem extract_standard_links (id rest : pystr) :
  is_video_id id →
  extract_video_id (str "https://www.youtube.com/watch?v=" ++ id ++ rest)
  = Ok (Some id)
  ∧ extract_video_id (str "https://youtu.be/" ++ id ++ rest) = Ok (Some id)
  ∧ extract_video_id (str "https://www.youtube.com/embed/" ++ id ++ rest)
    = Ok (Some id)
  ∧ extract_video_id (str "https://www.youtube.com/shorts/" ++ id ++ rest)
    = Ok (Some id).
Proof.
  intros Hid. split_and!.
  - apply (extract_after_clean_prefix (str "https://www.youtube.com/watch?")
             (str "v=") id rest); [vm_compute; reflexivity|by left|done].
  - apply (extract_after_clean_prefix (str "https://youtu.be")
             (str "/") id rest); [vm_compute; reflexivity|by right|done].
  - apply (extract_after_clean_prefix (str "https://www.youtube.com/embed")
             (str "/") id rest); [vm_compute; reflexivity|by right|done].
  - apply (extract_after_clean_prefix (str "https://www.youtube.com/shorts")
             (str "/") id rest); [vm_compute; reflexivity|by right|done].
Qed.

Lemma extract_standard_links_witness :
  extract_video_id
    (str "https://www.youtube.com/embed/" ++ str "9bZkp7q19f0" ++ str "?rel=0")
  = Ok (Some (str "9bZkp7q19f0")).
Proof.
  apply (extract_standard_links (str "9bZkp7q19f0") (str "?rel=0")).
  by_compute.
Defined.

(** X2: text added after the input does not change an id that was found. *)
Theorem extract_stable_under_suffix (url suffix id : pystr) :
  extract_video_id url = Ok (Some id) →
  extract_video_id (url ++ suffix) = Ok (Some id).
Proof.
  intros He.
  destruct (extract_video_id_cases url) as [[He' _]|(i & id0 & He' & Hi & Hlt)];
    rewrite He in He'; simplify_eq.
  pose proof (candidate_at_app _ suffix _ _ Hi) as Hi'.
  destruct (extract_video_id_cases (url ++ suffix))
    as [[_ Hnone]|(i' & id' & -> & Hi'' & Hlt')].
  { by rewrite Hnone in Hi'. }
  destruct (decide (i' = i)) as [->|Hne]; [congruence|].
  destruct (decide (i < i')) as [Hlt0|Hge]; [by rewrite Hlt' in Hi'|].
  assert (i' < i) as Hlt1 by lia.
  apply candidate_at_inv in Hi as (k & Hk & -> & [Hlen _]%video_id_window).
  rewrite (candidate_at_app_None url suffix i') in Hi''; [done| |by apply Hlt].
  destruct Hk as [[-> _]|[-> _]]; lia.
Qed.

Lemma extract_stable_under_suffix_witness :
  extract_video_id (str "https://youtu.be/dQw4w9WgXcQ" ++ str "&t=30s")
  = Ok (Some (str "dQw4w9WgXcQ")).
Proof.
  apply (extract_stable_under_suffix (str "https://youtu.be/dQw4w9WgXcQ")).
  vm_compute. reflexivity.
Defined.

(** X3: nothing is found in an input of fewer than 12 characters: a marker
    and 11 characters do not fit. *)
Theorem extract_short_input (url : pystr) :
  length url < 12 → extract_video_id url = Ok None.
Proof.
  intros Hlen.
  destruct (extract_video_id_cases url) as [[He _]|(i & id & _ & Hi & _)];
    [done|].
  apply candidate_at_inv in Hi as (k & Hk & -> & [Hk' _]%video_id_window).
  destruct Hk as [[-> _]|[-> _]]; lia.
Qed.

Lemma extract_short_input_witness :
  extract_video_id (str "/dQw4w9WgXc") = Ok None.
Proof. apply (extract_short_input (str "/dQw4w9WgXc")). vm_compute. lia. Defined.

(** * Further properties of the fetcher *)

Section fetcher_more.

Lemma fetch_transcript_outcome (w : session) video_id tr :
  fetch_transcript w video_id tr =
  (match fetch_outcome w video_id with
   | Ok transcript => Normal transcript
   | Raise e => Raised e
   end, tr ++ [GetTranscript video_id]).
Proof.
  rewrite fetch_transcript_unfold. unfold fetch_outcome.
  destruct (get_transcript w video_id) as [segs|e]; [|done].
  cbn [mbind result_bind]. by destruct (mbind _ _).
Qed.

Lemma mapM_getitem_missing (segs : list entry) key :
  (∃ seg, seg ∈ segs ∧ seg !! key = None) →
  mapM (λ entry : entry, getitem entry key) segs = Raise (KeyError key).
Proof.
  induction segs as [|seg segs IH]; intros (bad & Hin & Hbad).
  { by apply elem_of_nil in Hin. }
  change (mapM ?f (seg :: segs))
    with (y ← getitem seg key; k ← mapM f segs; mret (y :: k)).
  destruct (seg !! key) as [v|] eqn:Hseg.
  - rewrite IH; [unfold getitem; by rewrite Hseg|].
    apply elem_of_cons in Hin as [->|Hin]; [congruence|by exists bad].
  - unfold getitem. by rewrite Hseg.
Qed.

Lemma mapM_getitem_present (segs : list entry) key :
  Forall (λ seg : entry, is_Some (seg !! key)) segs →
  ∃ vals, mapM (λ entry : entry, getitem entry key) segs = Ok vals.
Proof.
  induction 1 as [|seg segs [v Hv] _ [vals IH]]; [by exists []|].
  exists (v :: vals).
  change (mapM ?f (seg :: segs))
    with (y ← getitem seg key; k ← mapM f segs; mret (y :: k)).
  rewrite IH. unfold getitem. by rewrite Hv.
Qed.

Lemma mapM_getitem_app (l1 l2 : list entry) key v1 v2 :
  mapM (λ entry : entry, getitem entry key) l1 = Ok v1 →
  mapM (λ entry : entry, getitem entry key) l2 = Ok v2 →
  mapM (λ entry : entry, getitem entry key) (l1 ++ l2) = Ok (v1 ++ v2).
Proof.
  revert v1. induction l1 as [|seg l1 IH]; intros v1.
  { by intros [= <-]. }
  cbn [app].
  change (mapM ?f (seg :: ?l))
    with (y ← getitem seg key; k ← mapM f l; mret (y :: k)).
  destruct (getitem seg key) as [v|e]; [|done].
  destruct (mapM _ l1) as [vals|e] eqn:Hl1; [|done].
  intros [= <-] H2. by rewrite (IH vals eq_refl H2).
Qed.

Lemma check_strs_first_float i (texts : list pystr) bits vals :
  check_strs i ((PyStr <$> texts) ++ PyFloat bits :: vals)
  = Raise (TypeError (str "sequence item "
                      ++ str (pretty (N.of_nat (i + length texts)))
                      ++ str ": expected str instance, float found")).
Proof.
  revert i. induction texts as [|t texts IH]; intros i.
  - cbn [fmap list_fmap app check_strs length type_name].
    rewrite Nat.add_0_r. do 4 f_equal.
  - cbn [fmap list_fmap app check_strs length]. cbn [fmap list_fmap] in IH.
    rewrite IH. cbn [mbind result_bind].
    by replace (S i + length texts) with (i + S (length texts)) by lia.
Qed.

Lemma length_join_strs (sep : pystr) (texts : list pystr) :
  length (join_strs sep texts)
  = sum_list (length <$> texts) + (length texts - 1) * length sep.
Proof.
  induction texts as [|t texts IH]; [done|].
  destruct texts as [|t' texts].
  { cbn. lia. }
  change (join_strs sep (t :: t' :: texts))
    with (t ++ sep ++ join_strs sep (t' :: texts)).
  rewrite !length_app, IH. cbn [fmap list_fmap sum_list sum_list_with length].
  unfold id.
  replace (S (length texts) - 1) with (length texts) by lia.
  replace (S (S (length texts)) - 1) with (S (length texts)) by lia. lia.
Qed.

End fetcher_more.

(** X4: whatever the service answers, [fetch_transcript] sends it exactly
    one request and does nothing else on the page; an error of the service
    comes out unchanged. *)
Theorem fetch_transcript_one_request
    (w : session) (video_id : pystr) (tr : list event) :
  snd (fetch_transcript w video_id tr) = tr ++ [GetTranscript video_id]
  ∧ ∀ e, get_transcript w video_id = Raise e →
         fst (fetch_transcript w video_id tr) = Raised e.
Proof.
  rewrite fetch_transcript_outcome. split; [done|].
  intros e He. unfold fetch_outcome. by rewrite He.
Qed.

Lemma fetch_transcript_one_request_witness :
  fst (fetch_transcript (Session [] true no_transcript_service)
         (str "dQw4w9WgXcQ") [])
  = Raised (ApiError (str "No transcripts available")).
Proof.
  apply (proj2 (fetch_transcript_one_request
                  (Session [] true no_transcript_service)
                  (str "dQw4w9WgXcQ") [])).
  reflexivity.
Defined.

(** X5: when a segment of the answer has no ["text"] key, the fetch ends
    with [KeyError('text')], whatever the other segments hold. *)
Theorem fetch_transcript_missing_text
    (w : session) (video_id : pystr) (segs : list entry) (tr : list event) :
  get_transcript w video_id = Ok segs →
  (∃ seg : entry, seg ∈ segs ∧ seg !! str "text" = None) →
  fst (fetch_transcript w video_id tr) = Raised (KeyError (str "text")).
Proof.
  intros Hapi Hbad. rewrite fetch_transcript_outcome. unfold fetch_outcome.
  rewrite Hapi. cbn [mbind result_bind fst].
  by rewrite (mapM_getitem_missing _ _ Hbad).
Qed.

Lemma fetch_transcript_missing_text_witness :
  fst (fetch_transcript
         (Session [] true
            (λ _, Ok [ {[ str "text" := PyStr (str "Hello") ]};
                       {[ str "start" := PyFloat 0 ]} ]))
         (str "dQw4w9WgXcQ") [])
  = Raised (KeyError (str "text")).
Proof.
  apply (fetch_transcript_missing_text
           (Session [] true
              (λ _, Ok [ {[ str "text" := PyStr (str "Hello") ]};
                         {[ str "start" := PyFloat 0 ]} ]))
           (str "dQw4w9WgXcQ")
           [ {[ str "text" := PyStr (str "Hello") ]};
             {[ str "start" := PyFloat 0 ]} ] []).
  - reflexivity.
  - exists {[ str "start" := PyFloat 0 ]}. split.
    + apply elem_of_cons. right. apply elem_of_cons. by left.
    + vm_compute. reflexivity.
Defined.

(** X6: when every segment has a text but the first one that is not a
    string is a number, at index [i], the fetch ends with the [TypeError]
    of [join] that names [i]. *)
Theorem fetch_transcript_text_not_str
    (w : session) (video_id : pystr) (front back : list entry) (seg : entry)
    (texts : list pystr) (bits : N) (tr : list event) :
  get_transcript w video_id = Ok (front ++ seg :: back) →
  Forall2 (λ (s : entry) t, s !! str "text" = Some (PyStr t)) front texts →
  seg !! str "text" = Some (PyFloat bits) →
  Forall (λ s : entry, is_Some (s !! str "text")) back →
  fst (fetch_transcript w video_id tr)
  = Raised (TypeError (str "sequence item "
                       ++ str (pretty (N.of_nat (length front)))
                       ++ str ": expected str instance, float found")).
Proof.
  intros Hapi Hfront Hseg Hback.
  rewrite fetch_transcript_outcome. unfold fetch_outcome.
  rewrite Hapi. cbn [mbind result_bind fst].
  destruct (mapM_getitem_present _ _ Hback) as [vals Hvals].
  rewrite (mapM_getitem_app front (seg :: back) _
             (PyStr <$> texts) (PyFloat bits :: vals)).
  - cbn [mbind result_bind]. unfold str_join.
    rewrite check_strs_first_float. cbn [mbind result_bind].
    by rewrite (Forall2_length _ _ _ Hfront).
  - by apply mapM_getitem_text.
  - change (mapM ?f (seg :: back))
      with (y ← getitem seg (str "text"); k ← mapM f back; mret (y :: k)).
    rewrite Hvals. unfold getitem. by rewrite Hseg.
Qed.

Lemma fetch_transcript_text_not_str_witness :
  fst (fetch_transcript
         (Session [] true
            (λ _, Ok [ {[ str "text" := PyStr (str "Hello") ]};
                       {[ str "text" := PyFloat 0 ]} ]))
         (str "dQw4w9WgXcQ") [])
  = Raised (TypeError
              (str "sequence item 1: expected str instance, float found")).
Proof.
  apply (fetch_transcript_text_not_str
           (Session [] true
              (λ _, Ok [ {[ str "text" := PyStr (str "Hello") ]};
                         {[ str "text" := PyFloat 0 ]} ]))
           (str "dQw4w9WgXcQ")
           [ {[ str "text" := PyStr (str "Hello") ]} ] []
           {[ str "text" := PyFloat 0 ]} [str "Hello"] 0 []).
  - reflexivity.
  - repeat constructor; vm_compute; reflexivity.
  - vm_compute. reflexivity.
  - constructor.
Defined.

(** X7: the transcript of [N] texts is as long as the texts together plus
    the [N - 1] line feeds between them: none leads, none trails. *)
Theorem fetch_transcript_length
    (w : session) (video_id : pystr) (segs : list entry)
    (texts : list pystr) (tr : list event) :
  get_transcript w video_id = Ok segs →
  Forall2 (λ (seg : entry) t, seg !! str "text" = Some (PyStr t)) segs texts →
  ∃ transcript,
    fst (fetch_transcript w video_id tr) = Normal transcript
    ∧ length transcript = sum_list (length <$> texts) + (length texts - 1).
Proof.
  intros Hapi Htexts. exists (join_strs newline texts).
  rewrite fetch_transcript_outcome. unfold fetch_outcome.
  rewrite Hapi. cbn [mbind result_bind fst].
  rewrite (mapM_getitem_text _ _ Htexts). cbn [mbind result_bind].
  unfold str_join. rewrite check_strs_texts. split; [done|].
  rewrite length_join_strs. cbn [newline length]. lia.
Qed.

Lemma fetch_transcript_length_witness :
  ∃ transcript,
    fst (fetch_transcript (Session [] true hello_world_service)
           (str "dQw4w9WgXcQ") [])
    = Normal transcript
    ∧ length transcript
      = sum_list (length <$> [str "Hello"; str "world"])
        + (length [str "Hello"; str "world"] - 1).
Proof.
  eapply (fetch_transcript_length (Session [] true hello_world_service)
            (str "dQw4w9WgXcQ") _ [str "Hello"; str "world"] []).
  - reflexivity.
  - repeat constructor; vm_compute; reflexivity.
Defined.

(** * Further properties of the page *)

Section page_more.

(** Every run, path by path, with the fetch reduced to its outcome. *)
Lemma run_unfold (w : session) :
  run w =
  if fetch_button_clicked w then
    match video_url_value w with
    | [] => (Returned, page_header ++ [StError (str "Please enter a YouTube URL.")])
    | _ :: _ =>
        match extract_video_id (video_url_value w) with
        | Raise e => (Raised e, page_header ++ [CallExtractVideoId (video_url_value w)])
        | Ok None =>
            (Returned,
             page_header ++
             [CallExtractVideoId (video_url_value w);
              StError (str "Invalid YouTube URL. Please check the link and try again.")])
        | Ok (Some video_id) =>
            match fetch_outcome w video_id with
            | Ok transcript =>
                (Normal (),
                 page_header ++
                 [CallExtractVideoId (video_url_value w);
                  StSpinnerEnter (str "Fetching transcript...");
                  CallFetchTranscript video_id; GetTranscript video_id;
                  StSpinnerExit;
                  StSuccess (str "Transcript fetched successfully!");
                  StWrite (str "Below is the transcript of your video. You can scroll and copy.");
                  StTextArea (str "Transcript") transcript 300
                    (str "Click inside and press Ctrl+A to select all.");
                  StDownloadButton (str "Download Transcript as .txt") transcript
                    (str "youtube_transcript.txt") (str "text/plain")])
            | Raise exc =>
                (Returned,
                 page_header ++
                 [CallExtractVideoId (video_url_value w);
                  StSpinnerEnter (str "Fetching transcript...");
                  CallFetchTranscript video_id; GetTranscript video_id;
                  StError (str "Sorry, there was a problem fetching the transcript: "
                           ++ exc_str exc ++ str ".");
                  StSpinnerExit])
            end
        end
    end
  else (Normal (), page_header).
Proof.
  destruct w as [url [] api]; cbn [fetch_button_clicked video_url_value];
    [rewrite run_clicked|apply run_not_clicked].
  destruct url as [|c url]; [done|].
  destruct (extract_video_id (c :: url)) as [[video_id|]|e]; [|done..].
  cbv zeta. rewrite fetch_transcript_outcome.
  destruct (fetch_outcome _ video_id); by rewrite <-!app_assoc.
Qed.

Lemma fetch_outcome_texts (w : session) video_id segs (texts : list pystr) :
  get_transcript w video_id = Ok segs →
  Forall2 (λ (seg : entry) t, seg !! str "text" = Some (PyStr t)) segs texts →
  fetch_outcome w video_id = Ok (newline_joined texts).
Proof.
  intros Hapi Htexts. unfold fetch_outcome. rewrite Hapi.
  cbn [mbind result_bind]. rewrite (mapM_getitem_text _ _ Htexts).
  cbn [mbind result_bind]. unfold str_join. rewrite check_strs_texts.
  cbn [mbind result_bind mret result_ret]. by rewrite join_strs_newline_joined.
Qed.

Lemma fetch_outcome_missing_text (w : session) video_id segs :
  get_transcript w video_id = Ok segs →
  (∃ seg : entry, seg ∈ segs ∧ seg !! str "text" = None) →
  fetch_outcome w video_id = Raise (KeyError (str "text")).
Proof.
  intros Hapi Hbad. unfold fetch_outcome. rewrite Hapi.
  cbn [mbind result_bind]. by rewrite (mapM_getitem_missing _ _ Hbad).
Qed.

End page_more.

(** Split a run into its paths: nothing entered, nothing found, transcript
    fetched, fetch failed, button not pressed. *)
Ltac run_paths w :=
  let url := fresh "url" in
  let c := fresh "c" in
  let api := fresh "api" in
  let He := fresh "He" in
  let Hid := fresh "Hid" in
  let Hf := fresh "Hfetch" in
  rewrite !(run_unfold w);
  destruct w as [url [] api]; cbn [fetch_button_clicked video_url_value];
  [ destruct url as [|c url];
    [ | destruct (extract_video_id_cases (c :: url))
          as [[He _]|(? & ? & He & Hid & _)];
        rewrite !He;
        [ | destruct (fetch_outcome _ _) as [?|?] eqn:Hf ] ]
  | ].

(** X8: as long as the button is not pressed the run only draws the page:
    no message, no call of the extractor, no request to the service, no
    transcript, whatever is in the field. *)
Theorem run_without_press (w : session) :
  fetch_button_clicked w = false →
  run w = (Normal (), page_header)
  ∧ errors (snd (run w)) = []
  ∧ extractor_calls (snd (run w)) = []
  ∧ service_requests (snd (run w)) = []
  ∧ transcripts_shown (snd (run w)) = [].
Proof.
  intros Hc. rewrite !run_unfold, Hc. by split_and!.
Qed.

Lemma run_without_press_witness :
  run (Session (str "https://youtu.be/dQw4w9WgXcQ") false hello_world_service)
  = (Normal (), page_header).
Proof.
  apply (run_without_press
           (Session (str "https://youtu.be/dQw4w9WgXcQ") false
              hello_world_service)).
  reflexivity.
Defined.

(** X9: when an id is found and the service answers with segments whose
    texts are [t1..tN], the run ends normally without any message, the
    service was asked once, for that id, and the joined text is what the
    text area shows and what the download button offers, as
    [youtube_transcript.txt] of type [text/plain], the last thing on the
    page. *)
Theorem run_shows_transcript
    (w : session) (video_id : pystr) (segs : list entry) (texts : list pystr) :
  fetch_button_clicked w = true →
  extract_video_id (video_url_value w) = Ok (Some video_id) →
  get_transcript w video_id = Ok segs →
  Forall2 (λ (seg : entry) t, seg !! str "text" = Some (PyStr t)) segs texts →
  fst (run w) = Normal ()
  ∧ errors (snd (run w)) = []
  ∧ service_requests (snd (run w)) = [video_id]
  ∧ transcripts_shown (snd (run w))
    = [newline_joined texts; newline_joined texts]
  ∧ last (snd (run w))
    = Some (StDownloadButton (str "Download Transcript as .txt")
              (newline_joined texts) (str "youtube_transcript.txt")
              (str "text/plain")).
Proof.
  intros Hc He Hapi Htexts. rewrite !run_unfold, Hc, He.
  destruct (video_url_value w) as [|c url] eqn:Hurl; [by vm_compute in He|].
  rewrite (fetch_outcome_texts _ _ _ _ Hapi Htexts). by split_and!.
Qed.

Lemma run_shows_transcript_witness :
  transcripts_shown
    (snd (run (Session (str "https://youtu.be/dQw4w9WgXcQ") true
                 hello_world_service)))
  = [newline_joined [str "Hello"; str "world"];
     newline_joined [str "Hello"; str "world"]].
Proof.
  eapply (run_shows_transcript
            (Session (str "https://youtu.be/dQw4w9WgXcQ") true
               hello_world_service)
            (str "dQw4w9WgXcQ") _ [str "Hello"; str "world"]).
  - reflexivity.
  - vm_compute. reflexivity.
  - reflexivity.
  - repeat constructor; vm_compute; reflexivity.
Defined.



(** X12: the service is only ever asked for what the extractor returned for
    the text in the field, an id of 11 characters of the alphabet, after a
    press of the button, and at most once in a run. *)
Theorem service_asked_for_extracted_id_only (w : session) (video_id : pystr) :
  video_id ∈ service_requests (snd (run w)) →
  fetch_button_clicked w = true
  ∧ extract_video_id (video_url_value w) = Ok (Some video_id)
  ∧ is_video_id video_id
  ∧ service_requests (snd (run w)) = [video_id].
Proof.
  run_paths w; cbn [snd]; intros Hin.
  1, 2, 5: by apply elem_of_nil in Hin.
  all: apply list_elem_of_singleton in Hin as ->;
    apply candidate_at_inv in Hid as (? & _ & -> & Hvid); by split_and!.
Qed.

Lemma service_asked_for_extracted_id_only_witness :
  service_requests
    (snd (run (Session (str "https://youtu.be/dQw4w9WgXcQ") true
                 no_transcript_service)))
  = [str "dQw4w9WgXcQ"].
Proof.
  apply (service_asked_for_extracted_id_only
           (Session (str "https://youtu.be/dQw4w9WgXcQ") true
              no_transcript_service)
           (str "dQw4w9WgXcQ")).
  by_compute.
Defined.

(** X13: the spinner goes up exactly in the runs that ask the service, once,
    and it always comes down again, also when the fetch fails. *)
Theorem spinner_always_taken_down (w : session) :
  (service_requests (snd (run w)) = [] ∧ spinner_events (snd (run w)) = [])
  ∨ (∃ video_id,
       service_requests (snd (run w)) = [video_id]
       ∧ spinner_events (snd (run w))
         = [StSpinnerEnter (str "Fetching transcript..."); StSpinnerExit]).
Proof.
  run_paths w; cbn [snd];
    first [ by left | right; eexists; by split_and! ].
Qed.

(** X14: a segment without a ["text"] key does not break the page: the
    [KeyError] is caught like an error of the service and shown in the same
    message, and no transcript is shown. *)
Theorem malformed_segment_is_reported
    (w : session) (video_id : pystr) (segs : list entry) :
  fetch_button_clicked w = true →
  extract_video_id (video_url_value w) = Ok (Some video_id) →
  get_transcript w video_id = Ok segs →
  (∃ seg : entry, seg ∈ segs ∧ seg !! str "text" = None) →
  fst (run w) = Returned
  ∧ errors (snd (run w))
    = [str "Sorry, there was a problem fetching the transcript: 'text'."]
  ∧ transcripts_shown (snd (run w)) = [].
Proof.
  intros Hc He Hapi Hbad. rewrite !run_unfold, Hc, He.
  destruct (video_url_value w) as [|c url] eqn:Hurl; [by vm_compute in He|].
  rewrite (fetch_outcome_missing_text _ _ _ Hapi Hbad). by split_and!.
Qed.

Lemma malformed_segment_is_reported_witness :
  errors
    (snd (run (Session (str "https://youtu.be/dQw4w9WgXcQ") true
                 (λ _, Ok [ {[ str "start" := PyFloat 0 ]} ]))))
  = [str "Sorry, there was a problem fetching the transcript: 'text'."].
Proof.
  eapply (malformed_segment_is_reported
            (Session (str "https://youtu.be/dQw4w9WgXcQ") true
               (λ _, Ok [ {[ str "start" := PyFloat 0 ]} ]))
            (str "dQw4w9WgXcQ") [ {[ str "start" := PyFloat 0 ]} ]).
  - reflexivity.
  - vm_compute. reflexivity.
  - reflexivity.
  - exists {[ str "start" := PyFloat 0 ]}. split.
    + apply elem_of_cons. by left.
    + vm_compute. reflexivity.
Defined.

(** X15: the extractor is called exactly in the runs where the button was
    pressed with something in the field, once, and with that text as it is:
    nothing is trimmed or rewritten on the way. *)
Theorem extractor_called_with_raw_input (w : session) :
  extractor_calls (snd (run w))
  = match fetch_button_clicked w, video_url_value w with
    | true, _ :: _ => [video_url_value w]
    | _, _ => []
    end.
Proof. by run_paths w. Qed.
